(** * Logic Solver (ASP + Gemini): a shallow embedding of [app.py]

    The application is a three-stage pipeline: [translate_to_asp] asks a
    generative service for an answer-set program and cuts it out of the
    markdown answer, [run_clingo] hands the program to the solver, and
    [interpret_solution] asks the service to explain the solver's output.
    The button handler at the bottom of the script sequences the three.

    Python strings are sequences of Unicode code points, so a string is a
    list of code points here.  The two remote services are oracles held in
    a [World] record; every user-interface call and every stage invocation
    is logged in a chronological trace so that statements of the form
    "stage X is (not) invoked" can be read off the trace. *)

From Stdlib Require Import List NArith Arith Bool Lia.
From Stdlib Require Import Strings.String Strings.Ascii.
From Stdlib Require Import Numbers.DecimalString.
Import ListNotations.

(** ** Python strings *)

Module PyStr.

Definition char := N.
Definition str := list char.

(** A literal of the source, given as its ASCII text. *)
Definition lit (s : string) : str :=
  map N_of_ascii (list_ascii_of_string s).
Arguments lit s%_string.

Definition nl : str := [10%N].
Definition quote : str := [34%N].

Definition str_eqb (a b : str) : bool :=
  if list_eq_dec N.eq_dec a b then true else false.

(** [str.isspace] for one code point: the table of CPython's
    [_PyUnicode_IsWhitespace]. *)
Definition py_isspace (c : char) : bool :=
  ((9 <=? c) && (c <=? 13) || (28 <=? c) && (c <=? 32)
   || (c =? 133) || (c =? 160) || (c =? 5760)
   || (8192 <=? c) && (c <=? 8202)
   || (c =? 8232) || (c =? 8233) || (c =? 8239) || (c =? 8287)
   || (c =? 12288))%N.

(** [s.lstrip()], [s.rstrip()], [s.strip()] with no argument. *)
Fixpoint py_lstrip (s : str) : str :=
  match s with
  | [] => []
  | c :: s' => if py_isspace c then py_lstrip s' else s
  end.

Definition py_rstrip (s : str) : str := rev (py_lstrip (rev s)).

Definition py_strip (s : str) : str := py_rstrip (py_lstrip s).

(** [s.startswith(d)], returning what follows the prefix. *)
Fixpoint strip_prefix (d s : str) : option str :=
  match d with
  | [] => Some s
  | x :: d' =>
      match s with
      | [] => None
      | y :: s' => if N.eqb x y then strip_prefix d' s' else None
      end
  end.

(** The leftmost occurrence of [d] in [s]: the text before it and the text
    after it.  This is the search step shared by [in], [split], [replace]
    and [count]. *)
Fixpoint break_on (d s : str) : option (str * str) :=
  match strip_prefix d s with
  | Some rest => Some ([], rest)
  | None =>
      match s with
      | [] => None
      | c :: s' =>
          match break_on d s' with
          | Some (a, b) => Some (c :: a, b)
          | None => None
          end
      end
  end.

(** [d in s]. *)
Definition py_in (d s : str) : bool :=
  match break_on d s with Some _ => true | None => false end.

(** [s.split(d)] for a non-empty separator [d] (the source only splits on
    the constant fence marker; Python rejects an empty separator).  Each
    round consumes at least one character, so [length s] rounds after the
    first suffice. *)
Fixpoint split_rounds (n : nat) (d s : str) : list str :=
  match break_on d s with
  | None => [s]
  | Some (a, b) =>
      match n with
      | O => [a; b]
      | S n' => a :: split_rounds n' d b
      end
  end.

Definition py_split (d s : str) : list str := split_rounds (List.length s) d s.

(** [s.replace(old, new)] for a non-empty [old]: the leftmost
    non-overlapping occurrences are replaced in one left-to-right pass. *)
Fixpoint replace_rounds (n : nat) (old new s : str) : str :=
  match break_on old s with
  | None => s
  | Some (a, b) =>
      match n with
      | O => a ++ new ++ b
      | S n' => a ++ new ++ replace_rounds n' old new b
      end
  end.

Definition py_replace (old new s : str) : str :=
  replace_rounds (List.length s) old new s.

(** [s.count(d)] for a non-empty [d]: non-overlapping occurrences. *)
Fixpoint count_rounds (n : nat) (d s : str) : nat :=
  match break_on d s with
  | None => 0
  | Some (_, b) =>
      match n with
      | O => 1
      | S n' => S (count_rounds n' d b)
      end
  end.

Definition py_count (d s : str) : nat := count_rounds (List.length s) d s.

(** [str(n)] for a non-negative integer. *)
Definition py_str_nat (n : nat) : str :=
  lit (NilZero.string_of_uint (Nat.to_uint n)).

(** [sep.join(parts)]. *)
Fixpoint py_join (sep : str) (parts : list str) : str :=
  match parts with
  | [] => []
  | [p] => p
  | p :: rest => p ++ sep ++ py_join sep rest
  end.

End PyStr.
Import PyStr.

(** ** Exceptions, outcomes and the trace monad *)

(** An instance of Python's [Exception]: its class name and [str(e)].
    Everything the two services raise as an error (network, quota, syntax
    errors of the solver, type errors) is of this kind, and is what
    [except Exception] catches. *)
Record exn := mk_exn { exn_class : str; exn_str : str }.

Inductive outcome (A : Type) : Type :=
| Return (a : A)
| Raise (e : exn).
Arguments Return {A} a.
Arguments Raise {A} e.

(** The structured content of the two f-string prompts: the fixed
    instructions are constant, so a prompt is determined by the values
    interpolated into it.  [None] stands for Python's [None]. *)
Inductive prompt :=
| TranslationPrompt (text_query : str)
| InterpretationPrompt (original_query : str) (asp_code : option str)
    (clingo_output : list str).

(** [genai.Client(api_key=...)]. *)
Record Client := mk_client { api_key : str }.

(** One answer set as the solver hands it to the callback: its shown
    symbols, each already printed. *)
Record Model := mk_model { symbols : list str }.

(** [str(m)] for a [clingo.Model]: the shown symbols separated by blanks. *)
Definition str_Model (m : Model) : str := py_join (lit " ") (symbols m).

(** What the solver does with one program: whether [ctl.add] and
    [ctl.ground] raise, the models [ctl.solve] passes to its callback in
    discovery order, and how [ctl.solve] ends: by raising, or by returning a
    result whose [.satisfiable] is [True], [False] or [None] (unknown). *)
Record solver_run := mk_run {
  add_raises : option exn;
  ground_raises : option exn;
  solve_found : list Model;
  solve_result : exn + option bool
}.

Inductive status_state := running | complete.

(** Observable events, in the order they happen. *)
Inductive event :=
| st_error_ev (msg : str)
| st_warning_ev (msg : str)
| st_status_ev (label : str) (expanded : bool)
| st_write_ev (msg : str)
| st_code_ev (body : option str)
| st_json_ev (body : list str)
| status_update_ev (label : str) (state : status_state)
    (expanded : option bool)
| st_divider_ev
| st_subheader_ev (msg : str)
| st_markdown_ev (body : option str)
| call_get_gemini_client
| call_translate_to_asp (text_query : str)
| call_run_clingo (asp_code : option str)
| call_interpret_solution (original_query : str) (asp_code : option str)
    (clingo_output : list str)
| call_generate_content (p : prompt).

Definition trace := list event.

(** Everything outside the script. *)
Record World := mk_world {
  (** [st.secrets.get("GOOGLE_API_KEY", ...)], [None] when the key is unset.
      The secret is taken to be a string; a secret of another TOML type
      (on which the membership test of line 11 would raise) is not covered *)
  secret_GOOGLE_API_KEY : option str;
  (** [client.models.generate_content(...)]: raises, or answers with a
      response whose [.text] is a string or [None] *)
  generate_content : Client -> prompt -> outcome (option str);
  (** the solver on a program text *)
  clingo : str -> solver_run;
  (** what [ctl.add] raises when handed [None] instead of a string *)
  add_None_error : exn
}.

Definition M (A : Type) : Type := trace -> outcome A * trace.

Definition ret {A} (a : A) : M A := fun t => (Return a, t).

Definition bind {A B} (m : M A) (k : A -> M B) : M B :=
  fun t =>
    match m t with
    | (Return a, t') => k a t'
    | (Raise e, t') => (Raise e, t')
    end.

Definition raise {A} (e : exn) : M A := fun t => (Raise e, t).

Definition emit (ev : event) : M unit := fun t => (Return tt, t ++ [ev]).

(** [try: body except Exception as e: handler(e)]. *)
Definition try_except {A} (body : M A) (handler : exn -> M A) : M A :=
  fun t =>
    match body t with
    | (Return a, t') => (Return a, t')
    | (Raise e, t') => handler e t'
    end.

Definition lift {A} (o : outcome A) : M A := fun t => (o, t).

Declare Scope py_scope.
Delimit Scope py_scope with py.
Notation "x <- m ;; k" := (bind m (fun x => k))
  (at level 61, m at next level, right associativity) : py_scope.
Notation "m ;; k" := (bind m (fun _ => k))
  (at level 61, right associativity) : py_scope.
Open Scope py_scope.

(** ** The script *)

Definition fence : str := lit "```".
Definition tag_asp : str := lit "asp".
Definition tag_clingo : str := lit "clingo".

Definition TypeError_not_iterable : exn :=
  mk_exn (lit "TypeError") (lit "argument of type 'NoneType' is not iterable").
Definition IndexError_list : exn :=
  mk_exn (lit "IndexError") (lit "list index out of range").

Definition API_KEY (w : World) : str :=
  match secret_GOOGLE_API_KEY w with
  | Some k => k
  | None => lit "YOUR_API_KEY_HERE"
  end.

Definition missing_key_message : str :=
  [128680%N] ++ lit " API Key is missing. Please check your Streamlit secrets.".

(** [not s] for a string: true exactly for the empty string. *)
Definition py_not (s : str) : bool :=
  match s with [] => true | _ :: _ => false end.

Definition get_gemini_client (w : World) : M (option Client) :=
  emit call_get_gemini_client ;;
  if py_not (API_KEY w) || py_in (lit "YOUR_API") (API_KEY w)
  then emit (st_error_ev missing_key_message) ;; ret None
  else ret (Some (mk_client (API_KEY w))).

(** [xs[1]]. *)
Definition index1 (xs : list str) : M str :=
  match nth_error xs 1 with
  | Some x => ret x
  | None => raise IndexError_list
  end.

(** Lines 39-43: the extraction of the program from [response.text]. *)
Definition extract_program (text : option str) : M (option str) :=
  match text with
  | None => raise TypeError_not_iterable
  | Some text =>
      if py_in fence text
      then
        block <- index1 (py_split fence text) ;;
        ret (Some (py_strip (py_replace tag_clingo []
                               (py_replace tag_asp [] block))))
      else ret (Some (py_strip text))
  end.

Definition translate_to_asp (w : World) (client : Client) (text_query : str)
  : M (option str) :=
  emit (call_translate_to_asp text_query) ;;
  try_except
    (emit (call_generate_content (TranslationPrompt text_query)) ;;
     text <- lift (generate_content w client (TranslationPrompt text_query)) ;;
     extract_program text)
    (fun e =>
       emit (st_error_ev (lit "Translation Error: " ++ exn_str e)) ;;
       ret None).

(** The callback [on_model] appends to the list [models] it shares with
    the body of [run_clingo]; the list is threaded explicitly. *)
Definition on_model (models : list str) (m : Model) : list str :=
  models ++ [str_Model m].

Definition solver_run_of (w : World) (asp_code : option str) : solver_run :=
  match asp_code with
  | Some code => clingo w code
  | None => mk_run (Some (add_None_error w)) None [] (inr None)
  end.

Definition ctl_add (r : solver_run) : M unit :=
  match add_raises r with Some e => raise e | None => ret tt end.

Definition ctl_ground (r : solver_run) : M unit :=
  match ground_raises r with Some e => raise e | None => ret tt end.

(** [ctl.solve(on_model=on_model)]: the callback runs once per model, then
    the call returns the result or raises.  The updated [models] comes back
    with the verdict. *)
Definition ctl_solve (r : solver_run) (models : list str)
  : M (list str * option bool) :=
  let models := fold_left on_model (solve_found r) models in
  match solve_result r with
  | inl e => raise e
  | inr satisfiable => ret (models, satisfiable)
  end.

(** The first error of a run, if any of the three calls raises. *)
Definition solver_raises (r : solver_run) : option exn :=
  match add_raises r with
  | Some e => Some e
  | None =>
      match ground_raises r with
      | Some e => Some e
      | None =>
          match solve_result r with
          | inl e => Some e
          | inr _ => None
          end
      end
  end.

(** The run completes and reports the verdict [v]. *)
Definition solver_reports (r : solver_run) (v : option bool) : Prop :=
  add_raises r = None /\ ground_raises r = None /\ solve_result r = inr v.

Definition UNSAT_message : str := lit "UNSATISFIABLE (No solution found)".

Definition run_clingo (w : World) (asp_code : option str) : M (list str) :=
  emit (call_run_clingo asp_code) ;;
  let models := [] in
  let ctl := solver_run_of w asp_code in
  try_except
    (ctl_add ctl ;;
     ctl_ground ctl ;;
     res <- ctl_solve ctl models ;;
     let (models, satisfiable) := res in
     match satisfiable with
     | Some true => ret models
     | _ => ret [UNSAT_message]
     end)
    (fun e => ret [lit "Clingo Error: " ++ exn_str e]).

Definition interpret_solution (w : World) (client : Client)
    (original_query : str) (asp_code : option str) (clingo_output : list str)
  : M (option str) :=
  emit (call_interpret_solution original_query asp_code clingo_output) ;;
  let p := InterpretationPrompt original_query asp_code clingo_output in
  try_except
    (emit (call_generate_content p) ;;
     lift (generate_content w client p))
    (fun e => ret (Some (lit "Interpretation Error: " ++ exn_str e))).

(** The body of [if st.button("Solve Logic"):], run on a press of the
    button with the text area holding [query]. *)
Definition solve_button (w : World) (query : str) : M unit :=
  if py_not query
  then emit (st_warning_ev (lit "Please enter a question."))
  else
      client <- get_gemini_client w ;;
      match client with
      | None => ret tt
      | Some client =>
          emit (st_status_ev (lit "Thinking... (Step 1: Translating to Logic)")
                  true) ;;
          emit (st_write_ev (lit "Generating Clingo/ASP rules...")) ;;
          asp_code <- translate_to_asp w client query ;;
          emit (st_code_ev asp_code) ;;
          emit (status_update_ev
                  (lit "Reasoning... (Step 2: Running Clingo Solver)")
                  running None) ;;
          emit (st_write_ev (lit "Solving logic program...")) ;;
          models <- run_clingo w asp_code ;;
          emit (st_write_ev (lit "Found " ++ py_str_nat (List.length models)
                               ++ lit " Model(s):")) ;;
          emit (st_json_ev models) ;;
          emit (status_update_ev
                  (lit "Synthesizing... (Step 3: Final Answer)")
                  running None) ;;
          final_answer <- interpret_solution w client query asp_code models ;;
          emit (status_update_ev (lit "Complete!") complete (Some false)) ;;
          emit st_divider_ev ;;
          emit (st_subheader_ev ([128161%N] ++ lit " Answer")) ;;
          emit (st_markdown_ev final_answer)
      end.

(** Running the handler from an empty trace. *)
Definition press (w : World) (query : str) : outcome unit * trace :=
  solve_button w query [].

Definition is_stage_call (ev : event) : bool :=
  match ev with
  | call_translate_to_asp _ | call_run_clingo _
  | call_interpret_solution _ _ _ => true
  | _ => false
  end.

Definition is_warning (ev : event) : bool :=
  match ev with st_warning_ev _ => true | _ => false end.

Definition is_run_clingo_call (ev : event) : bool :=
  match ev with call_run_clingo _ => true | _ => false end.

Definition is_interpret_call (ev : event) : bool :=
  match ev with call_interpret_solution _ _ _ => true | _ => false end.

(** ** Statements of the specification, as predicates *)

(** A query made of whitespace only (the empty query included). *)
Definition blank (query : str) : bool := forallb py_isspace query.

(** The guard the specification asks of the handler: no stage is invoked
    and a warning is shown. *)
Definition guarded (w : World) (query : str) : Prop :=
  existsb is_stage_call (snd (press w query)) = false
  /\ existsb is_warning (snd (press w query)) = true.

(** A response made of a well-formed fenced block: the opening marker, the
    language tag, the inner text and the closing marker. *)
Definition fenced_block (tag inner : str) : str :=
  fence ++ tag ++ inner ++ fence.

(** What the specification expects from such a block: the inner text,
    trimmed and otherwise untouched. *)
Definition fenced_block_expected (inner : str) : option str :=
  Some (py_strip inner).

(** ** Sample worlds *)

Definition ConnectionError_exn : exn :=
  mk_exn (lit "ConnectionError") (lit "network unreachable").

Definition RuntimeError_parse : exn :=
  mk_exn (lit "RuntimeError") (lit "parsing failed").

Definition AttributeError_encode : exn :=
  mk_exn (lit "AttributeError")
    (lit "'NoneType' object has no attribute 'encode'").

(** A solver that finds the program [a.] satisfiable with the model [a],
    the program [a. :- a.] unsatisfiable, and rejects everything else. *)
Definition sample_clingo (code : str) : solver_run :=
  if str_eqb code (lit "a.")
  then mk_run None None [mk_model [lit "a"]] (inr (Some true))
  else if str_eqb code (lit "a. :- a.")
  then mk_run None None [] (inr (Some false))
  else mk_run (Some RuntimeError_parse) None [] (inr None).

(** A configured key and a service that is down. *)
Definition world_service_down : World :=
  mk_world (Some (lit "k3y"))
    (fun _ _ => Raise ConnectionError_exn)
    sample_clingo AttributeError_encode.

(** A configured key and a service that answers every translation request
    with [answer] and every interpretation request with a fixed text. *)
Definition world_answering (answer : str) : World :=
  mk_world (Some (lit "k3y"))
    (fun _ p =>
       match p with
       | TranslationPrompt _ => Return (Some answer)
       | InterpretationPrompt _ _ _ => Return (Some (lit "The answer is a."))
       end)
    sample_clingo AttributeError_encode.

Definition grasp_answer : str :=
  fenced_block tag_asp (nl ++ lit "grasp(a)." ++ nl).

Definition sample_client : Client := mk_client (lit "k3y").

(** ** Further predicates on runs and texts *)

(** The key passes the test of [get_gemini_client]: it is neither empty nor
    a text holding the placeholder word. *)
Definition usable_key (w : World) : bool :=
  negb (py_not (API_KEY w) || py_in (lit "YOUR_API") (API_KEY w)).

Definition is_remote_call (ev : event) : bool :=
  match ev with call_generate_content _ => true | _ => false end.

Definition is_error (ev : event) : bool :=
  match ev with st_error_ev _ => true | _ => false end.

(** [s] is [a], then [d], then [b], and [d] starts at no position before
    the end of [a]: the first occurrence of [d] in [s] is the one after
    [a]. *)
Definition first_at (d s a b : str) : Prop :=
  s = a ++ d ++ b
  /\ forall i, i < List.length a -> strip_prefix d (skipn i s) = None.

(** A text that neither starts nor ends with a whitespace character. *)
Definition trimmed (p : str) : Prop :=
  match p with [] => True | c :: _ => py_isspace c = false end
  /\ match rev p with [] => True | c :: _ => py_isspace c = false end.

(** The run goes through [add], [ground] and [solve] without raising and
    [result.satisfiable] is [True]. *)
Definition reports_satisfiable (r : solver_run) : bool :=
  match solver_raises r with
  | Some _ => false
  | None =>
      match solve_result r with
      | inr (Some true) => true
      | _ => false
      end
  end.

(** One left-to-right pass deleting the word [d]: the first occurrence
    is cut out and the pass goes on in what follows it; a word that the
    cutting forms is not looked at again. *)
Inductive deleted (d : str) : str -> str -> Prop :=
| deleted_none (s : str) :
    (forall i, strip_prefix d (skipn i s) = None) -> deleted d s s
| deleted_step (s a b r : str) :
    first_at d s a b -> deleted d b r -> deleted d s (a ++ r).

(** A text in which neither tag word occurs. *)
Definition free_of_tags (r : str) : Prop :=
  py_in tag_asp r = false /\ py_in tag_clingo r = false.

(** A configured key, a service that answers every translation request
    with [answer] and fails on every interpretation request. *)
Definition world_interpreter_down (answer : str) : World :=
  mk_world (Some (lit "k3y"))
    (fun _ p =>
       match p with
       | TranslationPrompt _ => Return (Some answer)
       | InterpretationPrompt _ _ _ => Raise ConnectionError_exn
       end)
    sample_clingo AttributeError_encode.

(** No secret configured; the service would answer. *)
Definition world_no_secret : World :=
  mk_world None (fun _ _ => Return (Some (lit "a.")))
    sample_clingo AttributeError_encode.

(** A configured key and a service whose responses carry no text. *)
Definition world_no_text : World :=
  mk_world (Some (lit "k3y")) (fun _ _ => Return None)
    sample_clingo AttributeError_encode.

(** A solver stopped after its first model: the verdict is unknown. *)
Definition world_interrupted : World :=
  mk_world (Some (lit "k3y")) (fun _ _ => Return (Some (lit "a.")))
    (fun _ => mk_run None None [mk_model [lit "a"]] (inr None))
    AttributeError_encode.

(** Unfolding the script down to the oracles. *)
Ltac run_script :=
  cbv [solve_button get_gemini_client translate_to_asp run_clingo
       interpret_solution extract_program index1 ctl_add ctl_ground
       ctl_solve solver_run_of bind ret raise emit lift try_except press].

(** ** Facts about the string operations *)

Lemma strip_prefix_app (d s r : str) :
  strip_prefix d s = Some r <-> s = d ++ r.
Proof.
  revert s; induction d as [|x d IH]; intros s; simpl.
  - split; [intros [= ->] | intros ->]; reflexivity.
  - destruct s as [|y s].
    + split; discriminate.
    + destruct (N.eqb_spec x y) as [->|Hne].
      * rewrite IH. split; [intros -> | intros [= ->]]; reflexivity.
      * split; [discriminate | intros [= E _]; congruence].
Qed.

Lemma break_on_app (d s a b : str) :
  break_on d s = Some (a, b) -> s = a ++ d ++ b.
Proof.
  revert a b; induction s as [|c s IH]; intros a b; simpl.
  - destruct (strip_prefix d []) eqn:E; [|discriminate].
    intros [= <- <-]. now apply strip_prefix_app in E.
  - destruct (strip_prefix d (c :: s)) eqn:E.
    + intros [= <- <-]. now apply strip_prefix_app in E.
    + destruct (break_on d s) as [[a' b']|]; [|discriminate].
      intros [= <- <-]. simpl. f_equal. now apply IH.
Qed.

(** The occurrence found is the leftmost one: the separator starts at no
    earlier position. *)
Lemma break_on_leftmost (d s a b : str) :
  break_on d s = Some (a, b) ->
  forall i, i < List.length a -> strip_prefix d (skipn i s) = None.
Proof.
  revert a b; induction s as [|c s IH]; intros a b; simpl.
  - destruct (strip_prefix d []); [|discriminate].
    intros [= <- <-] i Hi. simpl in Hi. lia.
  - destruct (strip_prefix d (c :: s)) eqn:E.
    + intros [= <- <-] i Hi. simpl in Hi. lia.
    + destruct (break_on d s) as [[a' b']|] eqn:B; [|discriminate].
      intros [= <- <-] i Hi. destruct i as [|i]; simpl; [exact E|].
      apply (IH a' b' eq_refl). simpl in Hi. lia.
Qed.

Lemma break_on_None (d s : str) :
  break_on d s = None ->
  forall i, strip_prefix d (skipn i s) = None.
Proof.
  induction s as [|c s IH]; simpl.
  - destruct (strip_prefix d []) eqn:E; [discriminate|].
    intros _ i. now destruct i.
  - destruct (strip_prefix d (c :: s)) eqn:E; [discriminate|].
    destruct (break_on d s) as [[a' b']|]; [discriminate|].
    intros _ [|i]; simpl; auto.
Qed.

Lemma break_on_shorter (d s a b : str) :
  d <> [] -> break_on d s = Some (a, b) -> List.length b < List.length s.
Proof.
  intros Hd H. apply break_on_app in H. subst s.
  rewrite !length_app. destruct d; [congruence|simpl; lia].
Qed.

Lemma break_on_nil (d : str) : d <> [] -> break_on d [] = None.
Proof.
  intros Hd. destruct d; [congruence|reflexivity].
Qed.

Lemma py_in_true (d s : str) :
  py_in d s = true <-> exists a b, break_on d s = Some (a, b).
Proof.
  unfold py_in. destruct (break_on d s) as [[a b]|].
  - split; [eauto|reflexivity].
  - split; [discriminate|intros (a & b & H); discriminate].
Qed.

Lemma py_in_false (d s : str) :
  py_in d s = false <-> break_on d s = None.
Proof.
  unfold py_in. destruct (break_on d s) as [[a b]|]; split; congruence.
Qed.

(** The number of rounds does not matter once it reaches the length. *)
Lemma split_rounds_enough (d : str) (n m : nat) (s : str) :
  d <> [] -> List.length s <= n -> List.length s <= m ->
  split_rounds n d s = split_rounds m d s.
Proof.
  intros Hd. revert m s; induction n as [|n IH]; intros m s Hn Hm.
  - destruct s; [|simpl in Hn; lia].
    destruct m; cbn [split_rounds]; now rewrite (break_on_nil _ Hd).
  - destruct m as [|m].
    + destruct s; [|simpl in Hm; lia].
      cbn [split_rounds]. now rewrite (break_on_nil _ Hd).
    + cbn [split_rounds]. destruct (break_on d s) as [[a b]|] eqn:B; auto.
      f_equal. pose proof (break_on_shorter _ _ _ _ Hd B). apply IH; lia.
Qed.

Lemma py_split_found (d s a b : str) :
  d <> [] -> break_on d s = Some (a, b) ->
  py_split d s = a :: py_split d b.
Proof.
  intros Hd B. unfold py_split.
  pose proof (break_on_shorter _ _ _ _ Hd B) as L.
  destruct (List.length s) as [|n] eqn:E; [lia|].
  cbn [split_rounds]. rewrite B. f_equal. apply split_rounds_enough; auto; lia.
Qed.

Lemma py_split_absent (d s : str) :
  break_on d s = None -> py_split d s = [s].
Proof.
  intros B. unfold py_split.
  destruct (List.length s); cbn [split_rounds]; now rewrite B.
Qed.

Lemma py_split_nonempty (d s : str) : py_split d s <> [].
Proof.
  unfold py_split. destruct (List.length s); cbn [split_rounds];
    destruct (break_on d s) as [[a b]|]; discriminate.
Qed.

Lemma replace_rounds_enough (d new : str) (n m : nat) (s : str) :
  d <> [] -> List.length s <= n -> List.length s <= m ->
  replace_rounds n d new s = replace_rounds m d new s.
Proof.
  intros Hd. revert m s; induction n as [|n IH]; intros m s Hn Hm.
  - destruct s; [|simpl in Hn; lia].
    destruct m; cbn [replace_rounds]; now rewrite (break_on_nil _ Hd).
  - destruct m as [|m].
    + destruct s; [|simpl in Hm; lia].
      cbn [replace_rounds]. now rewrite (break_on_nil _ Hd).
    + cbn [replace_rounds]. destruct (break_on d s) as [[a b]|] eqn:B; auto.
      do 2 f_equal. pose proof (break_on_shorter _ _ _ _ Hd B). apply IH; lia.
Qed.

Lemma py_replace_found (d new s a b : str) :
  d <> [] -> break_on d s = Some (a, b) ->
  py_replace d new s = a ++ new ++ py_replace d new b.
Proof.
  intros Hd B. unfold py_replace.
  pose proof (break_on_shorter _ _ _ _ Hd B) as L.
  destruct (List.length s) as [|n] eqn:E; [lia|].
  cbn [replace_rounds]. rewrite B. do 2 f_equal. apply replace_rounds_enough; auto; lia.
Qed.

Lemma py_replace_absent (d new s : str) :
  break_on d s = None -> py_replace d new s = s.
Proof.
  intros B. unfold py_replace.
  destruct (List.length s); cbn [replace_rounds]; now rewrite B.
Qed.

Lemma count_rounds_enough (d : str) (n m : nat) (s : str) :
  d <> [] -> List.length s <= n -> List.length s <= m ->
  count_rounds n d s = count_rounds m d s.
Proof.
  intros Hd. revert m s; induction n as [|n IH]; intros m s Hn Hm.
  - destruct s; [|simpl in Hn; lia].
    destruct m; cbn [count_rounds]; now rewrite (break_on_nil _ Hd).
  - destruct m as [|m].
    + destruct s; [|simpl in Hm; lia].
      cbn [count_rounds]. now rewrite (break_on_nil _ Hd).
    + cbn [count_rounds]. destruct (break_on d s) as [[a b]|] eqn:B; auto.
      f_equal. pose proof (break_on_shorter _ _ _ _ Hd B). apply IH; lia.
Qed.

Lemma py_count_found (d s a b : str) :
  d <> [] -> break_on d s = Some (a, b) ->
  py_count d s = S (py_count d b).
Proof.
  intros Hd B. unfold py_count.
  pose proof (break_on_shorter _ _ _ _ Hd B) as L.
  destruct (List.length s) as [|n] eqn:E; [lia|].
  cbn [count_rounds]. rewrite B. f_equal. apply count_rounds_enough; auto; lia.
Qed.

Lemma py_count_absent (d s : str) :
  break_on d s = None -> py_count d s = 0.
Proof.
  intros B. unfold py_count.
  destruct (List.length s); cbn [count_rounds]; now rewrite B.
Qed.

(** Deleting a substring is splitting on it and gluing the pieces. *)
Lemma py_replace_nil_concat (d s : str) :
  d <> [] -> py_replace d [] s = List.concat (py_split d s).
Proof.
  intros Hd.
  remember (List.length s) as n eqn:E.
  assert (L : List.length s <= n) by lia. clear E.
  revert s L; induction n as [|n IH]; intros s L.
  - destruct s; [|simpl in L; lia].
    rewrite py_replace_absent, py_split_absent by now apply break_on_nil.
    reflexivity.
  - destruct (break_on d s) as [[a b]|] eqn:B.
    + rewrite (py_replace_found _ _ _ _ _ Hd B), (py_split_found _ _ _ _ Hd B).
      pose proof (break_on_shorter _ _ _ _ Hd B).
      simpl. rewrite IH by lia. reflexivity.
    + rewrite py_replace_absent, py_split_absent by assumption.
      simpl. now rewrite app_nil_r.
Qed.

Lemma py_lstrip_spec (s : str) :
  exists l, s = l ++ py_lstrip s /\ blank l = true
            /\ match py_lstrip s with
               | [] => True
               | c :: _ => py_isspace c = false
               end.
Proof.
  induction s as [|c s (l & E & Hl & Hh)]; simpl.
  - exists []. auto.
  - destruct (py_isspace c) eqn:Hc.
    + exists (c :: l). simpl. rewrite Hc, Hl. split; [now f_equal|auto].
    + exists []. auto.
Qed.

Lemma blank_rev (s : str) : blank (rev s) = blank s.
Proof.
  unfold blank. induction s as [|c s IH]; simpl; auto.
  rewrite forallb_app, IH. simpl. rewrite andb_true_r. apply andb_comm.
Qed.

(** [strip] removes a blank prefix and a blank suffix and nothing else, and
    what remains neither starts nor ends with whitespace. *)
Lemma py_strip_spec (s : str) :
  exists l r, s = l ++ py_strip s ++ r
              /\ blank l = true /\ blank r = true
              /\ match py_strip s with
                 | [] => True
                 | c :: _ => py_isspace c = false
                 end
              /\ match rev (py_strip s) with
                 | [] => True
                 | c :: _ => py_isspace c = false
                 end.
Proof.
  unfold py_strip, py_rstrip.
  destruct (py_lstrip_spec s) as (l & E & Hl & Hh).
  destruct (py_lstrip_spec (rev (py_lstrip s))) as (r' & E' & Hr & Ht).
  exists l, (rev r'). rewrite rev_involutive.
  assert (Es : py_lstrip s = rev (py_lstrip (rev (py_lstrip s))) ++ rev r').
  { rewrite <- rev_app_distr, <- E'. now rewrite rev_involutive. }
  repeat split.
  - now rewrite <- Es.
  - exact Hl.
  - now rewrite blank_rev.
  - destruct (rev (py_lstrip (rev (py_lstrip s)))) as [|c u] eqn:U; auto.
    rewrite Es in Hh. exact Hh.
  - exact Ht.
Qed.

(** ** More facts about the string operations *)

Lemma break_on_unfold (d s : str) :
  break_on d s =
    match strip_prefix d s with
    | Some rest => Some ([], rest)
    | None =>
        match s with
        | [] => None
        | c :: s' =>
            match break_on d s' with
            | Some (a, b) => Some (c :: a, b)
            | None => None
            end
        end
    end.
Proof. destruct s; reflexivity. Qed.

(** [break_on] finds exactly the first occurrence. *)
Lemma break_on_first_at (d s a b : str) :
  break_on d s = Some (a, b) <-> first_at d s a b.
Proof.
  split.
  - intros B. split; [now apply break_on_app|].
    now apply (break_on_leftmost _ _ _ _ B).
  - intros [E L]. subst s. induction a as [|c a IH].
    + rewrite break_on_unfold.
      assert (P : strip_prefix d ([] ++ d ++ b) = Some b)
        by now apply strip_prefix_app.
      now rewrite P.
    + change ((c :: a) ++ d ++ b) with (c :: (a ++ d ++ b)) in *.
      rewrite break_on_unfold.
      pose proof (L 0 ltac:(simpl; lia)) as L0. cbn [skipn] in L0.
      rewrite L0, IH; [reflexivity|].
      intros i Hi. apply (L (S i)). simpl. lia.
Qed.

Lemma py_strip_length (s : str) : List.length (py_strip s) <= List.length s.
Proof.
  destruct (py_strip_spec s) as (l & r & E & _).
  rewrite E at 2. rewrite !length_app. lia.
Qed.

Lemma py_strip_trimmed (s : str) : trimmed (py_strip s).
Proof.
  destruct (py_strip_spec s) as (l & r & _ & _ & _ & Hh & Ht).
  split; assumption.
Qed.

Lemma py_lstrip_fixed (s : str) :
  match s with [] => True | c :: _ => py_isspace c = false end ->
  py_lstrip s = s.
Proof.
  destruct s as [|c s]; simpl; [reflexivity|]. now intros ->.
Qed.

(** Trimming a trimmed text changes nothing. *)
Lemma py_strip_fixed (p : str) : trimmed p -> py_strip p = p.
Proof.
  intros [Hh Ht]. unfold py_strip, py_rstrip.
  rewrite (py_lstrip_fixed p Hh), (py_lstrip_fixed (rev p) Ht).
  apply rev_involutive.
Qed.

(** Deleting a word never lengthens a text. *)
Lemma py_replace_nil_length (d s : str) :
  d <> [] -> List.length (py_replace d [] s) <= List.length s.
Proof.
  intros Hd.
  remember (List.length s) as n eqn:E.
  assert (L : List.length s <= n) by lia.
  rewrite E. clear E.
  revert s L; induction n as [|n IH]; intros s L.
  - destruct s; [|simpl in L; lia].
    rewrite py_replace_absent by now apply break_on_nil. lia.
  - destruct (break_on d s) as [[a b]|] eqn:B.
    + rewrite (py_replace_found _ _ _ _ _ Hd B).
      pose proof (break_on_shorter _ _ _ _ Hd B) as Hb.
      pose proof (IH b ltac:(lia)) as Hr.
      apply break_on_app in B. subst s.
      rewrite !length_app in *. simpl. lia.
    + rewrite py_replace_absent by assumption. lia.
Qed.

(** The pieces of a split, glued back with the separator, are the text. *)
Lemma py_join_split (d s : str) :
  d <> [] -> py_join d (py_split d s) = s.
Proof.
  intros Hd.
  remember (List.length s) as n eqn:E.
  assert (L : List.length s <= n) by lia. clear E.
  revert s L; induction n as [|n IH]; intros s L.
  - destruct s; [|simpl in L; lia].
    now rewrite py_split_absent by now apply break_on_nil.
  - destruct (break_on d s) as [[a b]|] eqn:B.
    + rewrite (py_split_found _ _ _ _ Hd B).
      pose proof (break_on_shorter _ _ _ _ Hd B) as Hb.
      pose proof (IH b ltac:(lia)) as Hr.
      pose proof (py_split_nonempty d b) as Hne.
      destruct (py_split d b) as [|x xs] eqn:S; [congruence|].
      cbn [py_join]. cbn [py_join] in Hr. rewrite Hr.
      symmetry. now apply break_on_app.
    + now rewrite py_split_absent.
Qed.

(** [replace] with an empty replacement is the one-pass deletion. *)
Lemma py_replace_deleted (d s : str) :
  d <> [] -> deleted d s (py_replace d [] s).
Proof.
  intros Hd.
  remember (List.length s) as n eqn:E.
  assert (L : List.length s <= n) by lia. clear E.
  revert s L; induction n as [|n IH]; intros s L;
    destruct (break_on d s) as [[a b]|] eqn:B.
  - pose proof (break_on_shorter _ _ _ _ Hd B). lia.
  - rewrite (py_replace_absent _ _ _ B). apply deleted_none.
    now apply break_on_None.
  - rewrite (py_replace_found _ _ _ _ _ Hd B).
    pose proof (break_on_shorter _ _ _ _ Hd B) as Hb.
    apply (deleted_step d s a b).
    + now apply break_on_first_at.
    + apply IH. lia.
  - rewrite (py_replace_absent _ _ _ B). apply deleted_none.
    now apply break_on_None.
Qed.

(** ** Running the script *)

Lemma fence_nonempty : fence <> [].
Proof. discriminate. Qed.

Lemma tag_asp_nonempty : tag_asp <> [].
Proof. discriminate. Qed.

Lemma tag_clingo_nonempty : tag_clingo <> [].
Proof. discriminate. Qed.

Lemma on_model_fold (found : list Model) (models : list str) :
  fold_left on_model found models = models ++ map str_Model found.
Proof.
  revert models; induction found as [|m found IH]; intros models; simpl.
  - now rewrite app_nil_r.
  - rewrite IH. unfold on_model. now rewrite <- app_assoc.
Qed.

(** Under the guard [fence in text] the split has at least two parts. *)
Lemma py_split_fence_two (text : str) :
  py_in fence text = true ->
  exists a b rest, py_split fence text = a :: b :: rest.
Proof.
  intros H. apply py_in_true in H. destruct H as (a & b & B).
  rewrite (py_split_found _ _ _ _ fence_nonempty B).
  destruct (py_split fence b) as [|x rest] eqn:E.
  - now apply py_split_nonempty in E.
  - eauto.
Qed.

(** What [translate_to_asp] does when the service answers with a text. *)
Lemma translate_to_asp_answer (w : World) (c : Client) (q text : str)
    (t : trace) :
  generate_content w c (TranslationPrompt q) = Return (Some text) ->
  translate_to_asp w c q t =
    extract_program (Some text)
      ((t ++ [call_translate_to_asp q])
         ++ [call_generate_content (TranslationPrompt q)]).
Proof.
  intros H. run_script. rewrite H.
  destruct (py_in fence text) eqn:F; [|reflexivity].
  destruct (py_split_fence_two _ F) as (a & b & rest & E).
  rewrite E. reflexivity.
Qed.

(** What [run_clingo] returns, by the way the solver run ends. *)
Lemma run_clingo_result (w : World) (asp_code : option str) (t : trace) :
  run_clingo w asp_code t =
    (Return
       match solver_raises (solver_run_of w asp_code) with
       | Some e => [lit "Clingo Error: " ++ exn_str e]
       | None =>
           match solve_result (solver_run_of w asp_code) with
           | inr (Some true) =>
               map str_Model (solve_found (solver_run_of w asp_code))
           | _ => [UNSAT_message]
           end
       end,
     t ++ [call_run_clingo asp_code]).
Proof.
  unfold solver_raises. run_script. fold (solver_run_of w asp_code).
  destruct (solver_run_of w asp_code) as [ar gr found res]; simpl.
  destruct ar as [e|]; [reflexivity|].
  destruct gr as [e|]; [reflexivity|].
  destruct res as [e|[[|]|]]; try reflexivity.
  now rewrite on_model_fold.
Qed.

(** With a usable key and a non-empty query, a failed translation is
    followed by a solver run on [None] and by an interpretation request. *)
Lemma press_translation_failure (w : World) (query : str) (e : exn) :
  py_not query = false ->
  py_not (API_KEY w) || py_in (lit "YOUR_API") (API_KEY w) = false ->
  generate_content w (mk_client (API_KEY w)) (TranslationPrompt query)
    = Raise e ->
  In (call_run_clingo None) (snd (press w query))
  /\ In (call_interpret_solution query None
           [lit "Clingo Error: " ++ exn_str (add_None_error w)])
        (snd (press w query)).
Proof.
  intros Hq Hk Hg. run_script. rewrite Hq, Hk, Hg. simpl.
  destruct (generate_content w _ (InterpretationPrompt _ _ _));
    simpl; intuition.
Qed.

(** X15.  Where the word-deleting extraction does give the inner text: a
    block tagged "asp" or "clingo" whose closing marker is the first marker
    after the tag and whose inner text holds neither word comes back as the
    inner text, trimmed. *)
Lemma extract_program_clean_block (tag inner rest : str) (t : trace) :
  tag = tag_asp \/ tag = tag_clingo ->
  break_on fence (inner ++ fence ++ rest) = Some (inner, rest) ->
  py_in tag_asp inner = false ->
  py_in tag_clingo inner = false ->
  extract_program (Some (fenced_block tag inner ++ rest)) t
    = (Return (fenced_block_expected inner), t).
Proof.
  intros Htag Hclose Ha Hc.
  apply py_in_false in Ha. apply py_in_false in Hc.
  assert (Hopen : break_on fence (fenced_block tag inner ++ rest)
                  = Some ([], tag ++ inner ++ fence ++ rest)).
  { unfold fenced_block. rewrite <- !app_assoc. reflexivity. }
  assert (Hblock : break_on fence (tag ++ inner ++ fence ++ rest)
                   = Some (tag ++ inner, rest)).
  { destruct Htag as [-> | ->]; simpl in Hclose |- *; now rewrite Hclose. }
  assert (Hwords : py_replace tag_clingo []
                     (py_replace tag_asp [] (tag ++ inner)) = inner).
  { destruct Htag as [-> | ->].
    - assert (B : break_on tag_asp (tag_asp ++ inner) = Some ([], inner))
        by reflexivity.
      rewrite (py_replace_found _ _ _ _ _ tag_asp_nonempty B). simpl.
      now rewrite (py_replace_absent _ _ _ Ha), (py_replace_absent _ _ _ Hc).
    - assert (B1 : break_on tag_asp (tag_clingo ++ inner) = None)
        by (simpl; now rewrite Ha).
      assert (B2 : break_on tag_clingo (tag_clingo ++ inner)
                   = Some ([], inner)) by reflexivity.
      rewrite (py_replace_absent _ _ _ B1).
      rewrite (py_replace_found _ _ _ _ _ tag_clingo_nonempty B2). simpl.
      now rewrite (py_replace_absent _ _ _ Hc). }
  unfold extract_program, py_in. rewrite Hopen.
  rewrite (py_split_found _ _ _ _ fence_nonempty Hopen).
  rewrite (py_split_found _ _ _ _ fence_nonempty Hblock).
  run_script. simpl. now rewrite Hwords.
Qed.

(** ** The claims *)

(** C1 (fails on the code).  The claim: when the translation call raises
    and [translate_to_asp] returns [None], neither [run_clingo] nor
    [interpret_solution] is invoked.  The handler does not test the result
    of [translate_to_asp]: with the service down and the query "puzzle",
    [translate_to_asp] returns [None], and the trace of the press holds a
    call of [run_clingo] and a call of [interpret_solution]. *)
Theorem translation_failure_reaches_solver_and_interpreter :
  fst (translate_to_asp world_service_down sample_client (lit "puzzle") [])
    = Return None
  /\ existsb is_run_clingo_call
       (snd (press world_service_down (lit "puzzle"))) = true
  /\ existsb is_interpret_call
       (snd (press world_service_down (lit "puzzle"))) = true.
Proof.
  repeat split; vm_compute; reflexivity.
Qed.

(** C2 (fails on the code).  The claim: from a well-formed block tagged
    "asp" the inner text comes back trimmed and otherwise unaltered.  For
    the answer made of the block with the one-line program "grasp(a)." the
    expected program is "grasp(a).", and [translate_to_asp] returns
    "gr(a).": the tag is removed by deleting every "asp" of the block. *)
Theorem fenced_grasp_program_is_altered :
  fst (translate_to_asp (world_answering grasp_answer) sample_client
         (lit "q") [])
    = Return (Some (lit "gr(a)."))
  /\ fenced_block_expected (nl ++ lit "grasp(a)." ++ nl)
     = Some (lit "grasp(a).")
  /\ Some (lit "gr(a).")
     <> fenced_block_expected (nl ++ lit "grasp(a)." ++ nl).
Proof.
  repeat split; vm_compute; congruence.
Qed.

(** C3, as stated, fails: the query made of one blank is whitespace-only,
    and with a configured key the press invokes the stages. *)
Lemma blank_query_reaches_pipeline :
  blank (lit " ") = true
  /\ ~ guarded (world_answering (lit "a.")) (lit " ").
Proof.
  split; [reflexivity|].
  intros [H _]. vm_compute in H. discriminate.
Qed.

(** C3 (amended).  For the empty query, a press of the button invokes none
    of [translate_to_asp], [run_clingo], [interpret_solution]; the only
    thing that happens is the warning. *)
Theorem empty_query_guarded (w : World) :
  press w [] = (Return tt, [st_warning_ev (lit "Please enter a question.")])
  /\ guarded w [].
Proof.
  split; [reflexivity|]. split; reflexivity.
Qed.

(** C4.  When the solve run of a program is reported unsatisfiable,
    [run_clingo] returns exactly the one-element list
    ["UNSATISFIABLE (No solution found)"]. *)
Theorem run_clingo_unsatisfiable (w : World) (code : str) (t : trace) :
  solver_reports (clingo w code) (Some false) ->
  fst (run_clingo w (Some code) t)
    = Return [lit "UNSATISFIABLE (No solution found)"].
Proof.
  intros (Ha & Hg & Hs). rewrite run_clingo_result.
  unfold solver_raises. simpl. now rewrite Ha, Hg, Hs.
Qed.

Lemma run_clingo_unsatisfiable_witness :
  solver_reports (clingo world_service_down (lit "a. :- a.")) (Some false)
  /\ fst (run_clingo world_service_down (Some (lit "a. :- a.")) [])
     = Return [lit "UNSATISFIABLE (No solution found)"].
Proof.
  assert (H : solver_reports (clingo world_service_down (lit "a. :- a."))
                (Some false)).
  { repeat split. }
  split; [exact H|].
  exact (run_clingo_unsatisfiable world_service_down (lit "a. :- a.") [] H).
Defined.

(** C5.  When loading, grounding or solving a program raises an error,
    [run_clingo] does not raise: it returns a one-element list whose string
    is "Clingo Error:" followed by a blank and the text of the error. *)
Theorem run_clingo_recovers (w : World) (code : str) (t : trace) (e : exn) :
  solver_raises (clingo w code) = Some e ->
  fst (run_clingo w (Some code) t)
    = Return [lit "Clingo Error: " ++ exn_str e]
  /\ strip_prefix (lit "Clingo Error:") (lit "Clingo Error: " ++ exn_str e)
     = Some (lit " " ++ exn_str e).
Proof.
  intros H. rewrite run_clingo_result. simpl solver_run_of. rewrite H.
  split; reflexivity.
Qed.

Lemma run_clingo_recovers_witness :
  solver_raises (clingo world_service_down (lit "p(")) = Some RuntimeError_parse
  /\ fst (run_clingo world_service_down (Some (lit "p(")) [])
     = Return [lit "Clingo Error: " ++ lit "parsing failed"].
Proof.
  assert (H : solver_raises (clingo world_service_down (lit "p("))
              = Some RuntimeError_parse) by reflexivity.
  split; [exact H|].
  exact (proj1 (run_clingo_recovers world_service_down (lit "p(") []
                  RuntimeError_parse H)).
Defined.

(** C6.  When the solve run of a program is reported satisfiable,
    [run_clingo] returns the printed models in the order the callback saw
    them; with exactly one model, the one-element list of its printing. *)
Theorem run_clingo_satisfiable (w : World) (code : str) (t : trace) :
  solver_reports (clingo w code) (Some true) ->
  fst (run_clingo w (Some code) t)
    = Return (map str_Model (solve_found (clingo w code)))
  /\ forall m, solve_found (clingo w code) = [m] ->
       fst (run_clingo w (Some code) t) = Return [str_Model m].
Proof.
  intros (Ha & Hg & Hs).
  assert (E : fst (run_clingo w (Some code) t)
              = Return (map str_Model (solve_found (clingo w code)))).
  { rewrite run_clingo_result. unfold solver_raises. simpl.
    now rewrite Ha, Hg, Hs. }
  split; [exact E|]. intros m Hm. rewrite E, Hm. reflexivity.
Qed.

Lemma run_clingo_satisfiable_witness :
  solver_reports (clingo world_service_down (lit "a.")) (Some true)
  /\ fst (run_clingo world_service_down (Some (lit "a.")) [])
     = Return [lit "a"].
Proof.
  assert (H : solver_reports (clingo world_service_down (lit "a."))
                (Some true)).
  { repeat split. }
  split; [exact H|].
  exact (proj1 (run_clingo_satisfiable world_service_down (lit "a.") [] H)).
Defined.

(** C7.  The two remote stages signal a failed call differently, each on
    its own account.  Whenever the translation call raises,
    [translate_to_asp] shows "Translation Error: ..." and returns [None].
    Whenever the interpretation call raises, whatever the translation call
    did, [interpret_solution] returns the string
    "Interpretation Error: ..." and shows nothing.  Neither raises. *)
Theorem remote_failures_are_asymmetric (w : World) (c : Client) :
  (forall (q : str) (t : trace) (e : exn),
     generate_content w c (TranslationPrompt q) = Raise e ->
     translate_to_asp w c q t
     = (Return None,
        t ++ [call_translate_to_asp q;
              call_generate_content (TranslationPrompt q);
              st_error_ev (lit "Translation Error: " ++ exn_str e)]))
  /\ (forall (q : str) (code : option str) (out : list str) (t : trace)
             (e : exn),
        generate_content w c (InterpretationPrompt q code out) = Raise e ->
        interpret_solution w c q code out t
        = (Return (Some (lit "Interpretation Error: " ++ exn_str e)),
           t ++ [call_interpret_solution q code out;
                 call_generate_content (InterpretationPrompt q code out)])).
Proof.
  split.
  - intros q t e H. run_script. rewrite H.
    now rewrite <- !app_assoc.
  - intros q code out t e H. run_script. rewrite H.
    now rewrite <- !app_assoc.
Qed.

Lemma remote_failures_are_asymmetric_witness :
  generate_content world_service_down sample_client
    (TranslationPrompt (lit "q")) = Raise ConnectionError_exn
  /\ fst (translate_to_asp world_service_down sample_client (lit "q") [])
     = Return None
  /\ generate_content (world_interpreter_down (lit "a.")) sample_client
       (TranslationPrompt (lit "q")) = Return (Some (lit "a."))
  /\ generate_content (world_interpreter_down (lit "a.")) sample_client
       (InterpretationPrompt (lit "q") (Some (lit "a.")) [lit "a"])
     = Raise ConnectionError_exn
  /\ fst (interpret_solution (world_interpreter_down (lit "a."))
            sample_client (lit "q") (Some (lit "a.")) [lit "a"] [])
     = Return (Some (lit "Interpretation Error: network unreachable")).
Proof.
  pose proof (proj1 (remote_failures_are_asymmetric world_service_down
                       sample_client)
                (lit "q") [] ConnectionError_exn eq_refl) as H1.
  pose proof (proj2 (remote_failures_are_asymmetric
                       (world_interpreter_down (lit "a.")) sample_client)
                (lit "q") (Some (lit "a.")) [lit "a"] []
                ConnectionError_exn eq_refl) as H2.
  rewrite H1, H2. repeat split.
Defined.

(** C8.  When the answer holds no fence marker, [translate_to_asp] returns
    the whole answer with the surrounding whitespace trimmed: the answer is
    a blank prefix, the result and a blank suffix, so nothing inside is
    removed, the words "asp" and "clingo" included. *)
Theorem translate_without_fence (w : World) (c : Client) (q text : str)
    (t : trace) :
  generate_content w c (TranslationPrompt q) = Return (Some text) ->
  py_in fence text = false ->
  fst (translate_to_asp w c q t) = Return (Some (py_strip text))
  /\ exists l r, text = l ++ py_strip text ++ r
                 /\ blank l = true /\ blank r = true.
Proof.
  intros Hg Hf. rewrite (translate_to_asp_answer w c q text t Hg).
  unfold extract_program. rewrite Hf. split; [reflexivity|].
  destruct (py_strip_spec text) as (l & r & E & Hl & Hr & _).
  exists l, r. auto.
Qed.

Lemma translate_without_fence_witness :
  generate_content (world_answering (lit " clasp(a). ")) sample_client
    (TranslationPrompt (lit "q")) = Return (Some (lit " clasp(a). "))
  /\ py_in fence (lit " clasp(a). ") = false
  /\ fst (translate_to_asp (world_answering (lit " clasp(a). "))
            sample_client (lit "q") [])
     = Return (Some (lit "clasp(a).")).
Proof.
  split; [reflexivity|]. split; [reflexivity|].
  exact (proj1 (translate_without_fence
                  (world_answering (lit " clasp(a). ")) sample_client
                  (lit "q") (lit " clasp(a). ") [] eq_refl eq_refl)).
Defined.

(** C9, as stated, fails.  The claim has every occurrence of "asp" and
    "clingo" removed from the text after the single marker.  After the
    marker in "```aaspsp" the code returns "asp": the result still holds
    the word.  After the marker in "```cliaspngo(a)." the word "clingo"
    does not occur, deleting its one "asp" leaves "clingo(a).", and the
    code returns "(a).": a word that was not in the text is deleted. *)
Lemma single_fence_words_not_all_removed :
  (py_count fence (lit "```aaspsp") = 1
   /\ fst (translate_to_asp (world_answering (lit "```aaspsp"))
             sample_client (lit "q") [])
      = Return (Some (lit "asp"))
   /\ ~ free_of_tags (lit "asp"))
  /\ (py_count fence (lit "```cliaspngo(a).") = 1
      /\ py_in tag_clingo (lit "cliaspngo(a).") = false
      /\ deleted tag_asp (lit "cliaspngo(a).") (lit "clingo(a).")
      /\ fst (translate_to_asp (world_answering (lit "```cliaspngo(a)."))
                sample_client (lit "q") [])
         = Return (Some (lit "(a)."))
      /\ lit "(a)." <> lit "clingo(a).").
Proof.
  split.
  - split; [reflexivity|]. split; [reflexivity|].
    intros [H _]. vm_compute in H. discriminate.
  - split; [reflexivity|]. split; [reflexivity|]. split.
    + change (lit "clingo(a).")
        with (py_replace tag_asp [] (lit "cliaspngo(a).")).
      apply py_replace_deleted, tag_asp_nonempty.
    + split; [reflexivity|]. vm_compute. discriminate.
Qed.

(** C9 (amended).  When the answer holds exactly one fence marker, the
    fallback is not taken.  With [post] the text after that marker up to
    the end, [translate_to_asp] returns what is left of [post] after one
    left-to-right pass deleting "asp", then one such pass deleting
    "clingo" from what the first pass left, then the removal of a blank
    prefix and a blank suffix, the result being trimmed. *)
Theorem translate_single_fence (w : World) (c : Client) (q text : str)
    (t : trace) :
  generate_content w c (TranslationPrompt q) = Return (Some text) ->
  py_count fence text = 1 ->
  exists pre post x y p,
    first_at fence text pre post
    /\ py_in fence text = true
    /\ (forall i, strip_prefix fence (skipn i post) = None)
    /\ deleted tag_asp post x
    /\ deleted tag_clingo x y
    /\ (exists l r, y = l ++ p ++ r /\ blank l = true /\ blank r = true)
    /\ trimmed p
    /\ p = py_strip (py_replace tag_clingo [] (py_replace tag_asp [] post))
    /\ fst (translate_to_asp w c q t) = Return (Some p).
Proof.
  intros Hg Hc.
  destruct (break_on fence text) as [[pre post]|] eqn:B.
  - rewrite (py_count_found _ _ _ _ fence_nonempty B) in Hc.
    assert (Bp : break_on fence post = None).
    { destruct (break_on fence post) as [[a b]|] eqn:B'; [|reflexivity].
      rewrite (py_count_found _ _ _ _ fence_nonempty B') in Hc.
      discriminate. }
    exists pre, post, (py_replace tag_asp [] post),
      (py_replace tag_clingo [] (py_replace tag_asp [] post)),
      (py_strip (py_replace tag_clingo [] (py_replace tag_asp [] post))).
    split; [now apply break_on_first_at|].
    split; [unfold py_in; now rewrite B|].
    split; [now apply break_on_None|].
    split; [apply py_replace_deleted, tag_asp_nonempty|].
    split; [apply py_replace_deleted, tag_clingo_nonempty|].
    split.
    { destruct (py_strip_spec
                  (py_replace tag_clingo [] (py_replace tag_asp [] post)))
        as (l & r & E & Hl & Hr & _).
      exists l, r. auto. }
    split; [apply py_strip_trimmed|].
    split; [reflexivity|].
    rewrite (translate_to_asp_answer w c q text t Hg).
    unfold extract_program, py_in. rewrite B.
    rewrite (py_split_found _ _ _ _ fence_nonempty B).
    rewrite (py_split_absent _ _ Bp). reflexivity.
  - rewrite (py_count_absent _ _ B) in Hc. discriminate.
Qed.

Lemma translate_single_fence_witness :
  generate_content
    (world_answering (lit "```asp" ++ nl ++ lit " wasp(1). clingo "))
    sample_client (TranslationPrompt (lit "q"))
  = Return (Some (lit "```asp" ++ nl ++ lit " wasp(1). clingo "))
  /\ py_count fence (lit "```asp" ++ nl ++ lit " wasp(1). clingo ") = 1
  /\ deleted tag_asp (lit "asp" ++ nl ++ lit " wasp(1). clingo ")
       (nl ++ lit " w(1). clingo ")
  /\ deleted tag_clingo (nl ++ lit " w(1). clingo ") (nl ++ lit " w(1).  ")
  /\ fst (translate_to_asp
            (world_answering (lit "```asp" ++ nl ++ lit " wasp(1). clingo "))
            sample_client (lit "q") [])
     = Return (Some (lit "w(1).")).
Proof.
  split; [reflexivity|]. split; [reflexivity|].
  split.
  { change (nl ++ lit " w(1). clingo ")
      with (py_replace tag_asp []
              (lit "asp" ++ nl ++ lit " wasp(1). clingo ")).
    apply py_replace_deleted, tag_asp_nonempty. }
  split.
  { change (nl ++ lit " w(1).  ")
      with (py_replace tag_clingo [] (nl ++ lit " w(1). clingo ")).
    apply py_replace_deleted, tag_clingo_nonempty. }
  destruct (translate_single_fence
              (world_answering (lit "```asp" ++ nl ++ lit " wasp(1). clingo "))
              sample_client (lit "q")
              (lit "```asp" ++ nl ++ lit " wasp(1). clingo ") []
              eq_refl eq_refl)
    as (pre & post & x & y & p & F & _ & _ & _ & _ & _ & _ & Ep & H).
  apply break_on_first_at in F. vm_compute in F. injection F as <- <-.
  rewrite H, Ep. reflexivity.
Defined.

(** C10.  The index [1] is in range whenever it is taken: if the fence
    marker occurs in the answer, splitting on it yields at least two
    parts.  Hence the extraction step raises for no answer text. *)
Theorem fence_index_in_range (text : str) :
  (py_in fence text = true ->
     2 <= List.length (py_split fence text)
     /\ nth_error (py_split fence text) 1 <> None)
  /\ forall t, exists p, extract_program (Some text) t = (Return (Some p), t).
Proof.
  split.
  - intros H. destruct (py_split_fence_two text H) as (a & b & rest & E).
    rewrite E. simpl. split; [lia|discriminate].
  - intros t. unfold extract_program.
    destruct (py_in fence text) eqn:F.
    + destruct (py_split_fence_two text F) as (a & b & rest & E).
      rewrite E. simpl. eexists. reflexivity.
    + eexists. reflexivity.
Qed.

Lemma fence_index_in_range_witness :
  py_in fence (lit "```a.```") = true
  /\ 2 <= List.length (py_split fence (lit "```a.```")).
Proof.
  split; [reflexivity|].
  exact (proj1 (proj1 (fence_index_in_range (lit "```a.```")) eq_refl)).
Defined.

(** ** Beyond the claims: the shape of each stage *)

(** The extraction returns on every text. *)
Lemma extract_program_returns (text : str) :
  exists p, forall t, extract_program (Some text) t = (Return (Some p), t).
Proof.
  unfold extract_program. destruct (py_in fence text) eqn:F.
  - destruct (py_split_fence_two text F) as (a & b & rest & E).
    rewrite E. eexists. intros t. reflexivity.
  - eexists. intros t. reflexivity.
Qed.

(** [translate_to_asp] on any trace: it returns, its trace effect is its
    call, one remote call and at most one error message, and it returns
    [None] exactly when it showed the error. *)
Lemma translate_to_asp_shape (w : World) (c : Client) (q : str) :
  exists r ui,
    (forall t,
       translate_to_asp w c q t
       = (Return r,
          t ++ [call_translate_to_asp q;
                call_generate_content (TranslationPrompt q)] ++ ui))
    /\ ((exists p, r = Some p /\ ui = [])
        \/ (exists msg,
              r = None
              /\ ui = [st_error_ev (lit "Translation Error: " ++ msg)])).
Proof.
  destruct (generate_content w c (TranslationPrompt q)) as [[text|]|e] eqn:G.
  - destruct (extract_program_returns text) as (p & Hp).
    exists (Some p), []. split; [|left; eauto].
    intros t. rewrite (translate_to_asp_answer w c q text t G), Hp.
    now rewrite <- app_assoc.
  - exists None, [st_error_ev (lit "Translation Error: "
                                 ++ exn_str TypeError_not_iterable)].
    split; [|right; eauto].
    intros t. run_script. rewrite G. now rewrite <- !app_assoc.
  - exists None, [st_error_ev (lit "Translation Error: " ++ exn_str e)].
    split; [|right; eauto].
    intros t. run_script. rewrite G. now rewrite <- !app_assoc.
Qed.

Lemma run_clingo_shape (w : World) (code : option str) :
  exists models,
    forall t, run_clingo w code t = (Return models, t ++ [call_run_clingo code]).
Proof.
  eexists. intros t. apply run_clingo_result.
Qed.

Lemma interpret_solution_shape (w : World) (c : Client) (q : str)
    (code : option str) (out : list str) :
  forall t,
    interpret_solution w c q code out t
    = (Return
         match generate_content w c (InterpretationPrompt q code out) with
         | Return text => text
         | Raise e => Some (lit "Interpretation Error: " ++ exn_str e)
         end,
       t ++ [call_interpret_solution q code out;
             call_generate_content (InterpretationPrompt q code out)]).
Proof.
  intros t. run_script.
  destruct (generate_content w c (InterpretationPrompt q code out));
    now rewrite <- app_assoc.
Qed.

(** ** Beyond the claims: the handler *)

(** The whole trace of a press with a usable key and a non-empty query,
    in terms of what the three stages return. *)
Lemma press_pipeline (w : World) (q : str) :
  usable_key w = true ->
  py_not q = false ->
  exists code ui models answer,
    (forall t,
       translate_to_asp w (mk_client (API_KEY w)) q t
       = (Return code,
          t ++ [call_translate_to_asp q;
                call_generate_content (TranslationPrompt q)] ++ ui))
    /\ ((exists p, code = Some p /\ ui = [])
        \/ (exists msg,
              code = None
              /\ ui = [st_error_ev (lit "Translation Error: " ++ msg)]))
    /\ (forall t,
          run_clingo w code t = (Return models, t ++ [call_run_clingo code]))
    /\ (forall t,
          interpret_solution w (mk_client (API_KEY w)) q code models t
          = (Return answer,
             t ++ [call_interpret_solution q code models;
                   call_generate_content
                     (InterpretationPrompt q code models)]))
    /\ press w q
       = (Return tt,
          [call_get_gemini_client;
           st_status_ev (lit "Thinking... (Step 1: Translating to Logic)")
             true;
           st_write_ev (lit "Generating Clingo/ASP rules...");
           call_translate_to_asp q;
           call_generate_content (TranslationPrompt q)]
          ++ ui
          ++ [st_code_ev code;
              status_update_ev
                (lit "Reasoning... (Step 2: Running Clingo Solver)")
                running None;
              st_write_ev (lit "Solving logic program...");
              call_run_clingo code;
              st_write_ev (lit "Found " ++ py_str_nat (List.length models)
                             ++ lit " Model(s):");
              st_json_ev models;
              status_update_ev
                (lit "Synthesizing... (Step 3: Final Answer)")
                running None;
              call_interpret_solution q code models;
              call_generate_content (InterpretationPrompt q code models);
              status_update_ev (lit "Complete!") complete (Some false);
              st_divider_ev;
              st_subheader_ev ([128161%N] ++ lit " Answer");
              st_markdown_ev answer]).
Proof.
  intros Hk Hq. unfold usable_key in Hk. apply negb_true_iff in Hk.
  destruct (translate_to_asp_shape w (mk_client (API_KEY w)) q)
    as (code & ui & Ht & Hui).
  destruct (run_clingo_shape w code) as (models & Hr).
  pose proof (interpret_solution_shape w (mk_client (API_KEY w)) q code
                models) as Hi.
  exists code, ui, models. eexists.
  split; [exact Ht|]. split; [exact Hui|]. split; [exact Hr|].
  split; [exact Hi|].
  cbv [press solve_button get_gemini_client bind ret emit].
  rewrite Hq, Hk. cbv beta iota.
  rewrite Ht. cbv beta iota. rewrite Hr. cbv beta iota.
  rewrite Hi. cbv beta iota.
  f_equal. repeat rewrite <- app_assoc. reflexivity.
Qed.

Lemma press_blocked (w : World) (q : str) :
  py_not q = false ->
  usable_key w = false ->
  press w q
  = (Return tt, [call_get_gemini_client; st_error_ev missing_key_message]).
Proof.
  intros Hq Hk. unfold usable_key in Hk. apply negb_false_iff in Hk.
  cbv [press solve_button get_gemini_client bind ret emit].
  now rewrite Hq, Hk.
Qed.

Lemma press_empty (w : World) (q : str) :
  py_not q = true ->
  press w q = (Return tt, [st_warning_ev (lit "Please enter a question.")]).
Proof.
  intros Hq. cbv [press solve_button emit]. now rewrite Hq.
Qed.

(** A run that is not reported satisfiable yields exactly one string. *)
Lemma run_clingo_single (w : World) (code : option str) (models : list str) :
  reports_satisfiable (solver_run_of w code) = false ->
  (forall t,
     run_clingo w code t = (Return models, t ++ [call_run_clingo code])) ->
  List.length models = 1.
Proof.
  unfold reports_satisfiable. intros Hn Hr.
  specialize (Hr []). rewrite run_clingo_result in Hr.
  injection Hr as <-.
  destruct (solver_raises (solver_run_of w code)); [reflexivity|].
  destruct (solve_result (solver_run_of w code)) as [e|[[|]|]];
    try reflexivity. discriminate.
Qed.

(** The two ways the extraction goes. *)
Lemma extract_program_cases (text : str) :
  (py_in fence text = false
   /\ forall t,
        extract_program (Some text) t = (Return (Some (py_strip text)), t))
  \/ (exists a b rest,
        py_split fence text = a :: b :: rest
        /\ forall t,
             extract_program (Some text) t
             = (Return (Some (py_strip (py_replace tag_clingo []
                                          (py_replace tag_asp [] b)))), t)).
Proof.
  unfold extract_program. destruct (py_in fence text) eqn:F.
  - right. destruct (py_split_fence_two text F) as (a & b & rest & E).
    exists a, b, rest. rewrite E. split; reflexivity.
  - left. split; reflexivity.
Qed.

(** What a returned program is made of. *)
Lemma translate_to_asp_some (w : World) (c : Client) (q p : str) (t : trace) :
  fst (translate_to_asp w c q t) = Return (Some p) ->
  exists text,
    generate_content w c (TranslationPrompt q) = Return (Some text)
    /\ (p = py_strip text
        \/ exists a b rest,
             py_split fence text = a :: b :: rest
             /\ p = py_strip (py_replace tag_clingo []
                                (py_replace tag_asp [] b))).
Proof.
  destruct (generate_content w c (TranslationPrompt q)) as [[text|]|e] eqn:G.
  - rewrite (translate_to_asp_answer w c q text t G).
    intros H. exists text. split; [reflexivity|].
    destruct (extract_program_cases text)
      as [[_ E] | (a & b & rest & S & E)]; rewrite E in H;
      injection H as <-; [left|right]; eauto.
  - run_script. rewrite G. discriminate.
  - run_script. rewrite G. discriminate.
Qed.

Lemma py_split_second_length (d s a b : str) (rest : list str) :
  d <> [] -> py_split d s = a :: b :: rest ->
  List.length b <= List.length s.
Proof.
  intros Hd S. rewrite <- (py_join_split d s Hd) at 1. rewrite S.
  cbn [py_join]. destruct rest; cbn [py_join]; rewrite !length_app; lia.
Qed.

(** ** Further properties of the handler *)

(** X1.  Without a usable key nothing runs.  When the secret is unset (the
    default placeholder is itself rejected), empty, or holds the word
    "YOUR_API", a press with a non-empty query shows the missing-key error
    and stops: no stage is invoked and no remote call is made. *)
Theorem unusable_key_blocks_pipeline (w : World) (q : str) :
  py_not q = false ->
  (secret_GOOGLE_API_KEY w = None
   \/ secret_GOOGLE_API_KEY w = Some []
   \/ exists k, secret_GOOGLE_API_KEY w = Some k
                /\ py_in (lit "YOUR_API") k = true) ->
  press w q
  = (Return tt, [call_get_gemini_client; st_error_ev missing_key_message])
  /\ existsb is_stage_call (snd (press w q)) = false
  /\ existsb is_remote_call (snd (press w q)) = false.
Proof.
  intros Hq Hs.
  assert (Hk : usable_key w = false).
  { unfold usable_key, API_KEY.
    destruct Hs as [-> | [-> | (k & -> & Hin)]]; [reflexivity..|].
    rewrite Hin. now rewrite orb_true_r. }
  rewrite (press_blocked w q Hq Hk). repeat split.
Qed.

Lemma unusable_key_blocks_pipeline_witness :
  py_not (lit "puzzle") = false
  /\ secret_GOOGLE_API_KEY world_no_secret = None
  /\ press world_no_secret (lit "puzzle")
     = (Return tt, [call_get_gemini_client; st_error_ev missing_key_message]).
Proof.
  split; [reflexivity|]. split; [reflexivity|].
  exact (proj1 (unusable_key_blocks_pipeline world_no_secret (lit "puzzle")
                  eq_refl (or_introl eq_refl))).
Defined.

(** X2.  No error of the service or of the solver escapes the handler.
    With the secret unset or a string, and for every query: whether each
    remote call answers or raises an [Exception], and whether [ctl.add],
    [ctl.ground] and [ctl.solve] return or raise one, the press ends with a
    normal return, never with an exception. *)
Theorem press_never_raises (w : World) (q : str) :
  fst (press w q) = Return tt.
Proof.
  destruct (py_not q) eqn:Hq.
  - now rewrite (press_empty w q Hq).
  - destruct (usable_key w) eqn:Hk.
    + destruct (press_pipeline w q Hk Hq)
        as (code & ui & models & answer & _ & _ & _ & _ & Hp).
      now rewrite Hp.
    + now rewrite (press_blocked w q Hq Hk).
Qed.

(** X3.  With a usable key and a non-empty query the three stages are
    invoked once each, in the order translate, solve, interpret; the solver
    gets what the translation returned, and the interpreter gets the query,
    that program and what the solver returned. *)
Theorem press_stage_order (w : World) (q : str) :
  usable_key w = true ->
  py_not q = false ->
  exists code models,
    fst (translate_to_asp w (mk_client (API_KEY w)) q []) = Return code
    /\ fst (run_clingo w code []) = Return models
    /\ filter is_stage_call (snd (press w q))
       = [call_translate_to_asp q; call_run_clingo code;
          call_interpret_solution q code models].
Proof.
  intros Hk Hq.
  destruct (press_pipeline w q Hk Hq)
    as (code & ui & models & answer & Ht & Hui & Hr & _ & Hp).
  exists code, models. rewrite (Ht []), (Hr []), Hp.
  split; [reflexivity|]. split; [reflexivity|].
  destruct Hui as [(p & -> & ->) | (msg & -> & ->)]; reflexivity.
Qed.

Lemma press_stage_order_witness :
  usable_key (world_answering (lit "a.")) = true
  /\ py_not (lit "puzzle") = false
  /\ exists code models,
       fst (translate_to_asp (world_answering (lit "a."))
              (mk_client (API_KEY (world_answering (lit "a."))))
              (lit "puzzle") []) = Return code
       /\ fst (run_clingo (world_answering (lit "a.")) code [])
          = Return models
       /\ filter is_stage_call
            (snd (press (world_answering (lit "a.")) (lit "puzzle")))
          = [call_translate_to_asp (lit "puzzle"); call_run_clingo code;
             call_interpret_solution (lit "puzzle") code models].
Proof.
  split; [reflexivity|]. split; [reflexivity|].
  exact (press_stage_order (world_answering (lit "a.")) (lit "puzzle")
           eq_refl eq_refl).
Defined.

(** X4.  No retry: a press with a usable key and a non-empty query makes
    exactly two remote calls, the translation request and then the
    interpretation request, also when the first one fails. *)
Theorem press_two_remote_calls (w : World) (q : str) :
  usable_key w = true ->
  py_not q = false ->
  exists code models,
    fst (translate_to_asp w (mk_client (API_KEY w)) q []) = Return code
    /\ fst (run_clingo w code []) = Return models
    /\ filter is_remote_call (snd (press w q))
       = [call_generate_content (TranslationPrompt q);
          call_generate_content (InterpretationPrompt q code models)].
Proof.
  intros Hk Hq.
  destruct (press_pipeline w q Hk Hq)
    as (code & ui & models & answer & Ht & Hui & Hr & _ & Hp).
  exists code, models. rewrite (Ht []), (Hr []), Hp.
  split; [reflexivity|]. split; [reflexivity|].
  destruct Hui as [(p & -> & ->) | (msg & -> & ->)]; reflexivity.
Qed.

Lemma press_two_remote_calls_witness :
  usable_key world_service_down = true
  /\ py_not (lit "puzzle") = false
  /\ List.length
       (filter is_remote_call
          (snd (press world_service_down (lit "puzzle")))) = 2.
Proof.
  split; [reflexivity|]. split; [reflexivity|].
  destruct (press_two_remote_calls world_service_down (lit "puzzle")
              eq_refl eq_refl) as (code & models & _ & _ & H).
  rewrite H. reflexivity.
Defined.

(** X5.  What is displayed is what is processed: the program shown by
    [st.code] is the one given to the solver, the list shown by [st.json]
    is the one given to the interpreter with its length announced in
    "Found N Model(s):", and the last thing shown is the text the
    interpreter returned. *)
Theorem press_displays_what_it_processes (w : World) (q : str) :
  usable_key w = true ->
  py_not q = false ->
  exists code models answer,
    fst (translate_to_asp w (mk_client (API_KEY w)) q []) = Return code
    /\ fst (run_clingo w code []) = Return models
    /\ fst (interpret_solution w (mk_client (API_KEY w)) q code models [])
       = Return answer
    /\ In (st_code_ev code) (snd (press w q))
    /\ In (st_write_ev (lit "Found " ++ py_str_nat (List.length models)
                          ++ lit " Model(s):")) (snd (press w q))
    /\ In (st_json_ev models) (snd (press w q))
    /\ last (snd (press w q)) st_divider_ev = st_markdown_ev answer.
Proof.
  intros Hk Hq.
  destruct (press_pipeline w q Hk Hq)
    as (code & ui & models & answer & Ht & Hui & Hr & Hi & Hp).
  exists code, models, answer. rewrite (Ht []), (Hr []), (Hi []), Hp.
  split; [reflexivity|]. split; [reflexivity|]. split; [reflexivity|].
  destruct Hui as [(p & -> & ->) | (msg & -> & ->)];
    cbn [snd app In]; repeat split; auto 20.
Qed.

Lemma press_displays_what_it_processes_witness :
  usable_key (world_answering (lit "a.")) = true
  /\ py_not (lit "puzzle") = false
  /\ In (st_json_ev [lit "a"])
       (snd (press (world_answering (lit "a.")) (lit "puzzle")))
  /\ last (snd (press (world_answering (lit "a.")) (lit "puzzle")))
       st_divider_ev
     = st_markdown_ev (Some (lit "The answer is a.")).
Proof.
  split; [reflexivity|]. split; [reflexivity|].
  destruct (press_displays_what_it_processes (world_answering (lit "a."))
              (lit "puzzle") eq_refl eq_refl)
    as (code & models & answer & Ht & Hr & Hi & _ & _ & Hj & Hl).
  injection Ht as <-. injection Hr as <-. injection Hi as <-.
  split; [exact Hj | exact Hl].
Defined.

(** X6.  The sentinels are counted as models: whenever the solver run on
    the translated program is not reported satisfiable (unsatisfiable,
    unknown, or an error), the handler announces "Found 1 Model(s):". *)
Theorem press_counts_sentinel_as_model (w : World) (q : str) :
  usable_key w = true ->
  py_not q = false ->
  exists code,
    fst (translate_to_asp w (mk_client (API_KEY w)) q []) = Return code
    /\ (reports_satisfiable (solver_run_of w code) = false ->
        In (st_write_ev (lit "Found 1 Model(s):")) (snd (press w q))).
Proof.
  intros Hk Hq.
  destruct (press_pipeline w q Hk Hq)
    as (code & ui & models & answer & Ht & Hui & Hr & _ & Hp).
  exists code. rewrite (Ht []), Hp. split; [reflexivity|].
  intros Hn. rewrite (run_clingo_single w code models Hn Hr).
  change (lit "Found " ++ py_str_nat 1 ++ lit " Model(s):")
    with (lit "Found 1 Model(s):").
  destruct Hui as [(p & -> & ->) | (msg & -> & ->)];
    cbn [snd app In]; auto 20.
Qed.

Lemma press_counts_sentinel_as_model_witness :
  usable_key (world_answering (lit "a. :- a.")) = true
  /\ py_not (lit "puzzle") = false
  /\ In (st_write_ev (lit "Found 1 Model(s):"))
       (snd (press (world_answering (lit "a. :- a.")) (lit "puzzle"))).
Proof.
  split; [reflexivity|]. split; [reflexivity|].
  destruct (press_counts_sentinel_as_model
              (world_answering (lit "a. :- a.")) (lit "puzzle")
              eq_refl eq_refl) as (code & Ht & H).
  injection Ht as <-. exact (H eq_refl).
Defined.

(** ** Further properties of the stages *)

(** X7.  An unknown verdict is reported as unsatisfiable: when the solve
    call returns with [satisfiable] neither true nor false, [run_clingo]
    returns the "UNSATISFIABLE" sentinel and drops the models the callback
    had collected. *)
Theorem run_clingo_unknown_verdict (w : World) (code : str) (t : trace) :
  solver_reports (clingo w code) None ->
  fst (run_clingo w (Some code) t) = Return [UNSAT_message].
Proof.
  intros (Ha & Hg & Hs). rewrite run_clingo_result.
  unfold solver_raises. simpl. now rewrite Ha, Hg, Hs.
Qed.

Lemma run_clingo_unknown_verdict_witness :
  solver_reports (clingo world_interrupted (lit "a.")) None
  /\ solve_found (clingo world_interrupted (lit "a.")) = [mk_model [lit "a"]]
  /\ fst (run_clingo world_interrupted (Some (lit "a.")) [])
     = Return [UNSAT_message].
Proof.
  assert (H : solver_reports (clingo world_interrupted (lit "a.")) None).
  { repeat split. }
  split; [exact H|]. split; [reflexivity|].
  exact (run_clingo_unknown_verdict world_interrupted (lit "a.") [] H).
Defined.

(** X8.  [run_clingo] always returns a list, whatever it is given ([None]
    included) and whatever the solver does; it shows nothing on the page;
    and only a run reported satisfiable can yield a list that is not of
    length one. *)
Theorem run_clingo_always_returns (w : World) (code : option str)
    (t : trace) :
  exists models,
    run_clingo w code t = (Return models, t ++ [call_run_clingo code])
    /\ (reports_satisfiable (solver_run_of w code) = false ->
        List.length models = 1).
Proof.
  destruct (run_clingo_shape w code) as (models & Hr).
  exists models. split; [apply Hr|].
  intros Hn. exact (run_clingo_single w code models Hn Hr).
Qed.

(** X9.  [translate_to_asp] always returns, makes exactly one remote call,
    and returns [None] exactly when it has shown an error. *)
Theorem translate_to_asp_none_iff_error (w : World) (c : Client) (q : str)
    (t : trace) :
  exists r evs,
    translate_to_asp w c q t = (Return r, t ++ evs)
    /\ filter is_remote_call evs
       = [call_generate_content (TranslationPrompt q)]
    /\ (r = None <-> existsb is_error evs = true).
Proof.
  destruct (translate_to_asp_shape w c q) as (r & ui & Ht & Hui).
  exists r. eexists. split; [apply Ht|].
  destruct Hui as [(p & -> & ->) | (msg & -> & ->)]; simpl;
    repeat split; congruence.
Qed.

(** X10.  A response without text counts as a failed translation: when the
    service answers but [response.text] is [None], [translate_to_asp] shows
    a "Translation Error: ..." message and returns [None]. *)
Theorem translate_to_asp_no_text (w : World) (c : Client) (q : str)
    (t : trace) :
  generate_content w c (TranslationPrompt q) = Return None ->
  exists msg,
    translate_to_asp w c q t
    = (Return None,
       t ++ [call_translate_to_asp q;
             call_generate_content (TranslationPrompt q);
             st_error_ev (lit "Translation Error: " ++ msg)]).
Proof.
  intros G. eexists. run_script. rewrite G.
  now rewrite <- !app_assoc.
Qed.

Lemma translate_to_asp_no_text_witness :
  generate_content world_no_text sample_client (TranslationPrompt (lit "q"))
    = Return None
  /\ fst (translate_to_asp world_no_text sample_client (lit "q") [])
     = Return None.
Proof.
  split; [reflexivity|].
  destruct (translate_to_asp_no_text world_no_text sample_client (lit "q")
              [] eq_refl) as (msg & H).
  now rewrite H.
Defined.

(** X11.  A program returned by [translate_to_asp] is trimmed: it neither
    starts nor ends with a whitespace character, so trimming it again
    changes nothing. *)
Theorem translate_to_asp_trimmed (w : World) (c : Client) (q p : str)
    (t : trace) :
  fst (translate_to_asp w c q t) = Return (Some p) ->
  trimmed p /\ py_strip p = p.
Proof.
  intros H.
  assert (T : trimmed p).
  { destruct (translate_to_asp_some w c q p t H)
      as (text & _ & [-> | (a & b & rest & _ & ->)]);
      apply py_strip_trimmed. }
  split; [exact T | now apply py_strip_fixed].
Qed.

Lemma translate_to_asp_trimmed_witness :
  fst (translate_to_asp (world_answering (lit " clasp(a). ")) sample_client
         (lit "q") []) = Return (Some (lit "clasp(a)."))
  /\ trimmed (lit "clasp(a).").
Proof.
  split; [reflexivity|].
  exact (proj1 (translate_to_asp_trimmed
                  (world_answering (lit " clasp(a). ")) sample_client
                  (lit "q") (lit "clasp(a).") [] eq_refl)).
Defined.

(** X12.  The extraction only removes: a program returned by
    [translate_to_asp] is never longer than the text of the response. *)
Theorem translate_to_asp_not_longer (w : World) (c : Client)
    (q text p : str) (t : trace) :
  generate_content w c (TranslationPrompt q) = Return (Some text) ->
  fst (translate_to_asp w c q t) = Return (Some p) ->
  List.length p <= List.length text.
Proof.
  intros G H.
  destruct (translate_to_asp_some w c q p t H) as (text' & G' & Hp).
  rewrite G in G'. injection G' as <-.
  destruct Hp as [-> | (a & b & rest & S & ->)].
  - apply py_strip_length.
  - pose proof (py_strip_length
                  (py_replace tag_clingo [] (py_replace tag_asp [] b))).
    pose proof (py_replace_nil_length tag_clingo
                  (py_replace tag_asp [] b) tag_clingo_nonempty).
    pose proof (py_replace_nil_length tag_asp b tag_asp_nonempty).
    pose proof (py_split_second_length fence text a b rest
                  fence_nonempty S).
    lia.
Qed.

Lemma translate_to_asp_not_longer_witness :
  generate_content (world_answering grasp_answer) sample_client
    (TranslationPrompt (lit "q")) = Return (Some grasp_answer)
  /\ fst (translate_to_asp (world_answering grasp_answer) sample_client
            (lit "q") []) = Return (Some (lit "gr(a)."))
  /\ List.length (lit "gr(a).") <= List.length grasp_answer.
Proof.
  split; [reflexivity|]. split; [reflexivity|].
  exact (translate_to_asp_not_longer (world_answering grasp_answer)
           sample_client (lit "q") grasp_answer (lit "gr(a).") []
           eq_refl eq_refl).
Defined.

(** X13.  With two or more markers only the text between the first two
    counts: what precedes the first marker and what follows the second one
    (further blocks included) is dropped, and the result is that block with
    "asp" deleted, then "clingo" deleted, then trimmed. *)
Theorem extract_between_first_two_markers (text pre mid block rest : str)
    (t : trace) :
  first_at fence text pre mid ->
  first_at fence mid block rest ->
  text = pre ++ fence ++ block ++ fence ++ rest
  /\ extract_program (Some text) t
     = (Return (Some (py_strip (py_replace tag_clingo []
                                  (py_replace tag_asp [] block)))), t).
Proof.
  intros H1 H2.
  split; [destruct H1 as [-> _], H2 as [-> _]; reflexivity|].
  apply break_on_first_at in H1. apply break_on_first_at in H2.
  unfold extract_program, py_in. rewrite H1.
  rewrite (py_split_found _ _ _ _ fence_nonempty H1).
  rewrite (py_split_found _ _ _ _ fence_nonempty H2).
  reflexivity.
Qed.

Lemma extract_between_first_two_markers_witness :
  first_at fence
    (lit "Sure: ```asp" ++ nl ++ lit " b. ``` and ```c.```") (lit "Sure: ")
    (lit "asp" ++ nl ++ lit " b. ``` and ```c.```")
  /\ first_at fence (lit "asp" ++ nl ++ lit " b. ``` and ```c.```")
       (lit "asp" ++ nl ++ lit " b. ") (lit " and ```c.```")
  /\ extract_program
       (Some (lit "Sure: ```asp" ++ nl ++ lit " b. ``` and ```c.```")) []
     = (Return (Some (lit "b.")), []).
Proof.
  assert (H1 : first_at fence
                 (lit "Sure: ```asp" ++ nl ++ lit " b. ``` and ```c.```")
                 (lit "Sure: ")
                 (lit "asp" ++ nl ++ lit " b. ``` and ```c.```")).
  { apply break_on_first_at. reflexivity. }
  assert (H2 : first_at fence
                 (lit "asp" ++ nl ++ lit " b. ``` and ```c.```")
                 (lit "asp" ++ nl ++ lit " b. ") (lit " and ```c.```")).
  { apply break_on_first_at. reflexivity. }
  split; [exact H1|]. split; [exact H2|].
  exact (proj2 (extract_between_first_two_markers _ _ _ _ _ [] H1 H2)).
Defined.

(** X14.  A block free of the two tag words comes back untouched: when the
    text between the first two markers holds neither "asp" nor "clingo"
    (an untagged block, for one), the result is that text, trimmed. *)
Theorem extract_wordless_block (text pre mid block rest : str) (t : trace) :
  first_at fence text pre mid ->
  first_at fence mid block rest ->
  py_in tag_asp block = false ->
  py_in tag_clingo block = false ->
  extract_program (Some text) t = (Return (Some (py_strip block)), t).
Proof.
  intros H1 H2 Ha Hc.
  apply break_on_first_at in H1. apply break_on_first_at in H2.
  apply py_in_false in Ha. apply py_in_false in Hc.
  unfold extract_program, py_in. rewrite H1.
  rewrite (py_split_found _ _ _ _ fence_nonempty H1).
  rewrite (py_split_found _ _ _ _ fence_nonempty H2).
  cbn [index1 nth_error bind ret].
  now rewrite (py_replace_absent _ _ _ Ha), (py_replace_absent _ _ _ Hc).
Qed.

Lemma extract_wordless_block_witness :
  first_at fence (lit "``` p(1). ```") [] (lit " p(1). ```")
  /\ first_at fence (lit " p(1). ```") (lit " p(1). ") []
  /\ py_in tag_asp (lit " p(1). ") = false
  /\ py_in tag_clingo (lit " p(1). ") = false
  /\ extract_program (Some (lit "``` p(1). ```")) []
     = (Return (Some (lit "p(1).")), []).
Proof.
  assert (H1 : first_at fence (lit "``` p(1). ```") [] (lit " p(1). ```")).
  { apply break_on_first_at. reflexivity. }
  assert (H2 : first_at fence (lit " p(1). ```") (lit " p(1). ") []).
  { apply break_on_first_at. reflexivity. }
  split; [exact H1|]. split; [exact H2|].
  split; [reflexivity|]. split; [reflexivity|].
  exact (extract_wordless_block _ _ _ _ _ [] H1 H2 eq_refl eq_refl).
Defined.

(** X16.  [interpret_solution] always returns and shows nothing on the
    page: its whole effect is one remote call, and when that call answers
    the text comes back as it is, with no trimming or extraction. *)
Theorem interpret_solution_always_returns (w : World) (c : Client)
    (q : str) (code : option str) (out : list str) (t : trace) :
  exists r,
    interpret_solution w c q code out t
    = (Return r,
       t ++ [call_interpret_solution q code out;
             call_generate_content (InterpretationPrompt q code out)])
    /\ forall text,
         generate_content w c (InterpretationPrompt q code out) = Return text
         -> r = text.
Proof.
  eexists. split; [apply interpret_solution_shape|].
  intros text G. now rewrite G.
Qed.

Lemma interpret_solution_always_returns_witness :
  generate_content (world_answering (lit "a.")) sample_client
    (InterpretationPrompt (lit "q") (Some (lit "a.")) [lit "a"])
    = Return (Some (lit "The answer is a."))
  /\ fst (interpret_solution (world_answering (lit "a.")) sample_client
            (lit "q") (Some (lit "a.")) [lit "a"] [])
     = Return (Some (lit "The answer is a.")).
Proof.
  split; [reflexivity|].
  destruct (interpret_solution_always_returns (world_answering (lit "a."))
              sample_client (lit "q") (Some (lit "a.")) [lit "a"] [])
    as (r & H & Hr).
  rewrite H. simpl. f_equal. exact (Hr _ eq_refl).
Defined.

Lemma run_clingo_always_returns_witness :
  reports_satisfiable (solver_run_of world_service_down None) = false
  /\ exists models,
       run_clingo world_service_down None []
       = (Return models, [] ++ [call_run_clingo None])
       /\ List.length models = 1.
Proof.
  split; [reflexivity|].
  destruct (run_clingo_always_returns world_service_down None [])
    as (models & H & Hl).
  exists models. split; [exact H | exact (Hl eq_refl)].
Defined.

Lemma extract_program_clean_block_witness :
  break_on fence ((nl ++ lit "a." ++ nl) ++ fence ++ [])
    = Some (nl ++ lit "a." ++ nl, [])
  /\ py_in tag_asp (nl ++ lit "a." ++ nl) = false
  /\ py_in tag_clingo (nl ++ lit "a." ++ nl) = false
  /\ extract_program
       (Some (fenced_block tag_asp (nl ++ lit "a." ++ nl) ++ [])) []
     = (Return (Some (lit "a.")), []).
Proof.
  split; [reflexivity|]. split; [reflexivity|]. split; [reflexivity|].
  exact (extract_program_clean_block tag_asp (nl ++ lit "a." ++ nl) [] []
           (or_introl eq_refl) eq_refl eq_refl eq_refl).
Defined.
